(** * MongoDB change-stream input plugin: model of [lib/plugin.go]

    The plugin reads a MongoDB collection (an optional full scan followed
    by a change stream), turns every raw record into an event map and
    hands the events, one per [Read] call, to the host pipeline.

    Go values of type [interface{}] are modelled by [value]; Go maps
    [map[string]interface{}] (and [bson.M]) by [gmap string value]; the
    background goroutine by a finite tree of effects ([proc]); the
    unbuffered channel [m.stream] by the rendezvous between the first
    pending [Send] of the goroutine and a [Read] call. *)

From Stdlib Require Import ZArith Floats.SpecFloat.
From stdpp Require Import gmap strings list fin_maps.

Open Scope string_scope.
Open Scope list_scope.
Local Set Warnings "-register-all".

(** ** Dynamically typed values *)

(** What an [interface{}] slot of a decoded BSON document may hold. *)
Inductive value : Type :=
| VNil
| VBool (b : bool)
| VInt (n : Z)
| VDouble (f : spec_float)
| VString (s : string)
| VArray (l : list value)
| VDoc (d : gmap string value).

(** [d[k]] on a Go map: the zero value [nil] when the key is absent. *)
Definition index (d : gmap string value) (k : string) : value :=
  default VNil (d !! k).

(** [v == "lit"] for an interface value [v] and a string constant: true
    only when the dynamic type is string and the contents agree. *)
Definition eq_string_const (v : value) (lit : string) : bool :=
  match v with
  | VString s => bool_decide (s = lit)
  | _ => false
  end.

(** [v.(string)]: the unchecked type assertion; [None] stands for the
    run-time panic. *)
Definition assert_string (v : value) : option string :=
  match v with
  | VString s => Some s
  | _ => None
  end.

(** Go [error] values. *)
Inductive error : Type := Err (msg : string).

(** ** The connector *)

Inductive mongo_Client : Type := MkClient (uri : string).

(** [context.WithCancel] yields a context and its cancel function
    together; [ctx_cancelled] is the state of that context. *)
Record cancel_ctx : Type := { ctx_cancelled : bool }.

Record mongoStreamInput : Type := {
  uri : string;
  database : string;
  collection : string;
  client : option mongo_Client;
  streamSnapshot : bool;
  context : option cancel_ctx   (* [context] and [cancelFunc]; [None] = nil *)
}.

(** [newMongoStreamInput]: the four configuration fields, everything else
    at its zero value. *)
Definition newMongoStreamInput (u d c : string) (snap : bool) : mongoStreamInput :=
  {| uri := u; database := d; collection := c; client := None;
     streamSnapshot := snap; context := None |}.

(** ** Event construction ([processMessage], lines 167-187) *)

Definition mk_event (action : value) (m : mongoStreamInput) (data : value)
  : gmap string value :=
  <["data" := data]>
    (<["collection" := VString (collection m)]>
      (<["database" := VString (database m)]>
        (<["action" := action]> ∅))).

Definition processMessage_event (m : mongoStreamInput) (data : gmap string value)
  : gmap string value :=
  match data !! "operationType" with
  | Some operation =>
      if eq_string_const operation "delete"
      then mk_event operation m (index data "documentKey")
      else mk_event operation m (index data "fullDocument")
  | None => mk_event (VString "insert") m (VDoc data)
  end.

(** ** Effects of the background goroutine *)

(** Calls into the database driver (and the one [fmt.Println]). *)
Inductive driver_call : Type :=
| CallFind | CallPrintln | CallCursorClose | CallWatch | CallStreamClose.

(** A goroutine as a tree of effects: it returns, panics (which aborts the
    process), calls the driver, or offers an event on [m.stream] and
    continues once a reader has taken it. *)
Inductive proc (A : Type) : Type :=
| Ret (a : A)
| Panic (e : error)
| Call (c : driver_call) (k : proc A)
| Send (ev : gmap string value) (k : proc A).
Arguments Ret {A} a.
Arguments Panic {A} e.
Arguments Call {A} c k.
Arguments Send {A} ev k.

Fixpoint proc_bind {A B : Type} (f : A → proc B) (p : proc A) : proc B :=
  match p with
  | Ret a => f a
  | Panic e => Panic e
  | Call c k => Call c (proc_bind f k)
  | Send ev k => Send ev (proc_bind f k)
  end.

#[export] Instance proc_mret : MRet proc := @Ret.
#[export] Instance proc_mbind : MBind proc := @proc_bind.

(** [defer c; body]: the deferred call runs when the body returns and also
    when it panics, before the panic goes on. *)
Fixpoint defer {A : Type} (c : driver_call) (body : proc A) : proc A :=
  match body with
  | Ret a => Call c (Ret a)
  | Panic e => Call c (Panic e)
  | Call c' k => Call c' (defer c k)
  | Send ev k => Send ev (defer c k)
  end.

(** What a goroutine does, in order: driver calls and channel sends. *)
Inductive step : Type :=
| Called (c : driver_call)
| Sent (ev : gmap string value).

Fixpoint trace {A : Type} (p : proc A) : list step :=
  match p with
  | Ret _ | Panic _ => []
  | Call c k => Called c :: trace k
  | Send ev k => Sent ev :: trace k
  end.

Definition step_sent (st : step) : option (gmap string value) :=
  match st with
  | Sent ev => Some ev
  | Called _ => None
  end.

Definition step_called (st : step) : option driver_call :=
  match st with
  | Called c => Some c
  | Sent _ => None
  end.

(** The events a goroutine offers on the channel, in order. *)
Definition proc_sends {A : Type} (p : proc A) : list (gmap string value) :=
  omap step_sent (trace p).

(** The driver calls a goroutine makes, in order. *)
Definition proc_calls {A : Type} (p : proc A) : list driver_call :=
  omap step_called (trace p).

(** How the goroutine ends: [None] when it returns, [Some e] when it
    panics with [e]. *)
Fixpoint proc_end {A : Type} (p : proc A) : option error :=
  match p with
  | Ret _ => None
  | Panic e => Some e
  | Call _ k | Send _ k => proc_end k
  end.

(** ** The database driver and the JSON encoder, as black boxes *)

Inductive result (A : Type) : Type :=
| Ok (a : A)
| Failed (e : error).
Arguments Ok {A} a.
Arguments Failed {A} e.

(** One entry per successful [Next()]: what [Decode] gives for it. When
    the entries are used up [Next()] is false; [cursor_err] is what
    [Err()] reports then. *)
Record mongo_Cursor : Type := {
  cursor_batch : list (result (gmap string value));
  cursor_err : option error
}.

(** The same for a change stream: the records it yields before [Next()]
    turns false (the stream was cancelled, disconnected or broke). *)
Record mongo_ChangeStream : Type := {
  stream_batch : list (result (gmap string value))
}.

Record driver : Type := {
  mongo_Connect : string → result mongo_Client;
  coll_Find : result mongo_Cursor;
  coll_Watch : result mongo_ChangeStream;
  (** result of the Disconnect call that follows [n] earlier ones *)
  client_Disconnect : nat → option error
}.

(** [service.Message]: body bytes and string metadata. *)
Record Message : Type := {
  body : list Byte.byte;
  meta : gmap string string
}.

(** The triple [Read] returns. *)
Record read_result : Type := {
  r_msg : Message;
  r_ack : option error → option error;
  r_err : option error
}.

(** The connector together with its goroutine. [pump] is [None] until
    [Connect] has spawned it ([Connect] is called once, as the host
    does); [disconnects] counts the Disconnect calls made on the client. *)
Record sys : Type := {
  self : mongoStreamInput;
  pump : option (proc unit);
  disconnects : nat
}.

Inductive outcome (A : Type) : Type :=
| Returned (a : A) (s : sys)   (* the call returns [a] *)
| Panicked (e : error)         (* the call panics *)
| Aborted (e : error)          (* the goroutine panicked while the call waited *)
| Blocked.                     (* the call never returns *)
Arguments Returned {A} a s.
Arguments Panicked {A} e.
Arguments Aborted {A} e.
Arguments Blocked {A}.

(** ** The goroutine: snapshot scan and change stream *)

(** [processMessage]: build the event, then [m.stream <- event]. *)
Definition processMessage (m : mongoStreamInput) (data : gmap string value)
  : proc unit :=
  Send (processMessage_event m data) (Ret tt).

(** The [for cursor.Next(...)] loop of [iterateCursor]. *)
Fixpoint iterateCursor_loop (m : mongoStreamInput)
    (batch : list (result (gmap string value))) : proc unit :=
  match batch with
  | [] => Ret tt
  | Failed e :: _ => Panic e
  | Ok data :: rest => processMessage m data ;; iterateCursor_loop m rest
  end.

Definition iterateCursor (m : mongoStreamInput) (cursor : mongo_Cursor)
  : proc unit :=
  defer CallCursorClose
    (iterateCursor_loop m (cursor_batch cursor) ;;
     match cursor_err cursor with
     | Some e => Panic e
     | None => Ret tt
     end).

(** The [for stream.Next(...)] loop of [iterateChangeStream]. *)
Fixpoint iterateChangeStream_loop (m : mongoStreamInput)
    (batch : list (result (gmap string value))) : proc unit :=
  match batch with
  | [] => Ret tt
  | Failed e :: _ => Panic e
  | Ok data :: rest => processMessage m data ;; iterateChangeStream_loop m rest
  end.

Definition iterateChangeStream (m : mongoStreamInput)
    (stream : mongo_ChangeStream) : proc unit :=
  defer CallStreamClose (iterateChangeStream_loop m (stream_batch stream)).

(** Where the goroutine stands: at a send, finished, or dead. *)
Inductive pump_state : Type :=
| AtSend (ev : gmap string value) (k : proc unit)
| Finished
| Crashed (e : error).

(** The goroutine runs on its own up to its next channel send. *)
Fixpoint next_send (p : proc unit) : pump_state :=
  match p with
  | Ret _ => Finished
  | Panic e => Crashed e
  | Call _ k => next_send k
  | Send ev k => AtSend ev k
  end.

(** The acknowledgement function [Read] hands out: always [nil]. *)
Definition ack_nil : option error → option error := λ _, None.

Definition set_pump (p : proc unit) (s : sys) : sys :=
  {| self := self s; pump := Some p; disconnects := disconnects s |}.

Section Connector.

(** The driver's answers in the run at hand. *)
Variable w : driver.

(** [json.Marshal]; on failure Go's pair is [(nil, err)]. *)
Variable json_Marshal : value → result (list Byte.byte).

Definition takeSnapshot (m : mongoStreamInput) : proc unit :=
  Call CallFind (Call CallPrintln
    match coll_Find w with
    | Failed e => Panic e
    | Ok cursor =>
        iterateCursor m cursor ;;
        Call CallWatch
          match coll_Watch w with
          | Failed e => Panic e
          | Ok stream => iterateChangeStream m stream
          end
    end).

(** [Connect]: a driver error panics; otherwise the goroutine is spawned
    and [nil] is returned. *)
Definition Connect (s : sys) : outcome (option error) :=
  let m := self s in
  match mongo_Connect w (uri m) with
  | Failed e => Panicked e
  | Ok c =>
      let m' := {| uri := uri m; database := database m;
                   collection := collection m; client := Some c;
                   streamSnapshot := streamSnapshot m;
                   context := Some {| ctx_cancelled := false |} |} in
      let s' := {| self := m'; pump := pump s; disconnects := disconnects s |} in
      if streamSnapshot m
      then Returned None (set_pump (takeSnapshot m') s')
      else
        match coll_Watch w with
        | Failed e => Panicked e
        | Ok stream => Returned None (set_pump (iterateChangeStream m' stream) s')
        end
  end.

(** [Close]: with a client, the result of Disconnect is returned at
    once; [m.cancelFunc()] is reached only without a client. *)
Definition Close (s : sys) : outcome (option error) :=
  let m := self s in
  match client m with
  | Some _ =>
      Returned (client_Disconnect w (disconnects s))
        {| self := m; pump := pump s; disconnects := S (disconnects s) |}
  | None =>
      match context m with
      | None => Panicked (Err "invalid memory address or nil pointer dereference")
      | Some _ =>
          Returned None
            {| self := {| uri := uri m; database := database m;
                          collection := collection m; client := client m;
                          streamSnapshot := streamSnapshot m;
                          context := Some {| ctx_cancelled := true |} |};
               pump := pump s; disconnects := disconnects s |}
      end
  end.

(** Lines 203-211 of [Read], for the event just received; [None] is the
    panic of a failed type assertion. *)
Definition Read_event (ev : gmap string value) : option read_result :=
  let messageBodyEncoded :=
    match json_Marshal (index ev "data") with
    | Ok b => b
    | Failed _ => []
    end in
  match assert_string (index ev "collection") with
  | None => None
  | Some table =>
      match assert_string (index ev "database") with
      | None => None
      | Some schema =>
          match assert_string (index ev "action") with
          | None => None
          | Some event =>
              Some {| r_msg := {| body := messageBodyEncoded;
                                  meta := <["event" := event]>
                                            (<["schema" := schema]>
                                              (<["table" := table]> ∅)) |};
                      r_ack := ack_nil;
                      r_err := None |}
          end
      end
  end.

(** [Read]: receive from [m.stream], then build the message. Nothing
    ever closes the channel, so without a sender the receive waits. *)
Definition Read (s : sys) : outcome read_result :=
  match pump s with
  | None => Blocked
  | Some p =>
      match next_send p with
      | Finished => Blocked
      | Crashed e => Aborted e
      | AtSend ev k =>
          match Read_event ev with
          | None => Panicked (Err "interface conversion: interface {} is not string")
          | Some r => Returned r (set_pump k s)
          end
      end
  end.

(** Up to [n] successive [Read] calls: the results of those that
    returned, stopping at the first that does not. *)
Fixpoint Read_n (n : nat) (s : sys) : list read_result :=
  match n with
  | O => []
  | S n' =>
      match Read s with
      | Returned r s' => r :: Read_n n' s'
      | _ => []
      end
  end.

(** [n] successive [Close] calls, stopping at a panic. *)
Fixpoint Close_n (n : nat) (s : sys) : list (option error) * sys :=
  match n with
  | O => ([], s)
  | S n' =>
      match Close s with
      | Returned r s' => let '(rs, s'') := Close_n n' s' in (r :: rs, s'')
      | _ => ([], s)
      end
  end.

End Connector.

(** A connector fresh from [newMongoStreamInput]. *)
Definition new_sys (u d c : string) (snap : bool) : sys :=
  {| self := newMongoStreamInput u d c snap; pump := None; disconnects := 0 |}.

(** ** Construction from the parsed configuration *)

(** [service.ParsedConfig], by its two accessors. *)
Record ParsedConfig : Type := {
  FieldString : string → result string;
  FieldBool : string → result bool
}.

(** [newMongoStreamInput(conf)]: the four fields are read in the order
    uri, database, collection, stream_snapshot; the first error is
    returned. *)
Definition newMongoStreamInput_conf (conf : ParsedConfig) : result mongoStreamInput :=
  match FieldString conf "uri" with
  | Failed err => Failed err
  | Ok u =>
      match FieldString conf "database" with
      | Failed err => Failed err
      | Ok d =>
          match FieldString conf "collection" with
          | Failed err => Failed err
          | Ok c =>
              match FieldBool conf "stream_snapshot" with
              | Failed err => Failed err
              | Ok snap => Ok (newMongoStreamInput u d c snap)
              end
          end
      end
  end.

(** A connector on which nothing has been called yet. *)
Definition sys_of (m : mongoStreamInput) : sys :=
  {| self := m; pump := None; disconnects := 0 |}.

(** The outcome of the read that follows [n] reads that returned; when
    an earlier read does not return, its outcome. *)
Fixpoint Read_nth (json_Marshal : value → result (list Byte.byte))
    (n : nat) (s : sys) : outcome read_result :=
  match n with
  | O => Read json_Marshal s
  | S n' =>
      match Read json_Marshal s with
      | Returned _ s' => Read_nth json_Marshal n' s'
      | o => o
      end
  end.

(** The record's [operationType], when present, is a string (as it is in
    every change event the server reports). *)
Definition string_operation (data : gmap string value) : Prop :=
  match data !! "operationType" with
  | None => True
  | Some operation => is_Some (assert_string operation)
  end.

(** ** Sample data and sample runs *)

Definition conf_db_c : mongoStreamInput := newMongoStreamInput "mongodb://h" "db" "c" false.

Definition doc_1_2 : gmap string value := <["_id" := VInt 1]> (<["x" := VInt 2]> ∅).

Definition key_1 : gmap string value := <["_id" := VInt 1]> ∅.

Definition doc_5_a : gmap string value := <["_id" := VInt 5]> (<["name" := VString "a"]> ∅).

Definition raw_update : gmap string value :=
  <["operationType" := VString "update"]> (<["fullDocument" := VDoc doc_1_2]> ∅).

Definition raw_delete : gmap string value :=
  <["operationType" := VString "delete"]> (<["documentKey" := VDoc key_1]> ∅).

(** A stored document that happens to have a numeric [operationType] field. *)
Definition raw_numeric_op : gmap string value :=
  <["_id" := VInt 1]> (<["operationType" := VInt 5]> ∅).

(** The numbers [encoding/json] has no text for. *)
Definition unsupported_number (v : value) : bool :=
  match v with
  | VDouble S754_nan | VDouble (S754_infinity _) => true
  | _ => false
  end.

(** A stand-in for [json.Marshal] in the sample runs: like the real
    encoder it refuses NaN and the infinities, alone or as a field of a
    document; the text it gives for the other values is not spelled out
    beyond the constants. *)
Definition sample_Marshal (v : value) : result (list Byte.byte) :=
  match v with
  | VNil => Ok (String.list_byte_of_string "null")
  | VBool true => Ok (String.list_byte_of_string "true")
  | VBool false => Ok (String.list_byte_of_string "false")
  | VDoc d =>
      if existsb unsupported_number (map_to_list d).*2
      then Failed (Err "json: unsupported value")
      else Ok (String.list_byte_of_string "{}")
  | _ =>
      if unsupported_number v
      then Failed (Err "json: unsupported value")
      else Ok (String.list_byte_of_string "{}")
  end.

Definition ErrClientDisconnected : error := Err "client is disconnected".

(** A server that accepts the connection, has one document in the
    collection and then reports an update and a delete; a second
    Disconnect is refused. *)
Definition sample_driver : driver :=
  {| mongo_Connect := λ u, Ok (MkClient u);
     coll_Find := Ok {| cursor_batch := Ok <$> [doc_5_a]; cursor_err := None |};
     coll_Watch := Ok {| stream_batch := Ok <$> [raw_update; raw_delete] |};
     client_Disconnect := λ n, match n with O => None | S _ => Some ErrClientDisconnected end |}.




(** A server that cannot be reached. *)
Definition refusing_driver : driver :=
  {| mongo_Connect := λ _, Failed (Err "error parsing uri");
     coll_Find := Failed (Err "no client");
     coll_Watch := Failed (Err "no client");
     client_Disconnect := λ _, None |}.

(** A server that accepts the connection but refuses the change stream. *)
Definition unauthorized_driver : driver :=
  {| mongo_Connect := λ u, Ok (MkClient u);
     coll_Find := Ok {| cursor_batch := Ok <$> [doc_5_a]; cursor_err := None |};
     coll_Watch := Failed (Err "not authorized");
     client_Disconnect := λ _, None |}.

(** A collection with one document whose [operationType] field is a
    number. *)
Definition numeric_op_driver : driver :=
  {| mongo_Connect := λ u, Ok (MkClient u);
     coll_Find := Ok {| cursor_batch := [Ok raw_numeric_op]; cursor_err := None |};
     coll_Watch := Ok {| stream_batch := [] |};
     client_Disconnect := λ _, None |}.

(** A collection with one document that has a NaN field. *)
Definition raw_nan : gmap string value :=
  <["_id" := VInt 1]> (<["score" := VDouble S754_nan]> ∅).

Definition nan_driver : driver :=
  {| mongo_Connect := λ u, Ok (MkClient u);
     coll_Find := Ok {| cursor_batch := [Ok raw_nan]; cursor_err := None |};
     coll_Watch := Ok {| stream_batch := [] |};
     client_Disconnect := λ _, None |}.

(** The connector after [Connect] against [sample_driver], tail only. *)
Definition tail_connected : sys :=
  {| self := {| uri := "mongodb://h"; database := "db"; collection := "c";
                client := Some (MkClient "mongodb://h");
                streamSnapshot := false;
                context := Some {| ctx_cancelled := false |} |};
     pump := Some (iterateChangeStream conf_db_c
                     {| stream_batch := Ok <$> [raw_update; raw_delete] |});
     disconnects := 0 |}.

(** The connector after [Connect] against [nan_driver], snapshot mode. *)
Definition nan_connected : sys :=
  {| self := {| uri := "mongodb://h"; database := "db"; collection := "c";
                client := Some (MkClient "mongodb://h");
                streamSnapshot := true;
                context := Some {| ctx_cancelled := false |} |};
     pump := Some (takeSnapshot nan_driver conf_db_c);
     disconnects := 0 |}.

(** The connector after [Connect] against [numeric_op_driver], snapshot
    mode. *)
Definition numeric_connected : sys :=
  {| self := {| uri := "mongodb://h"; database := "db"; collection := "c";
                client := Some (MkClient "mongodb://h");
                streamSnapshot := true;
                context := Some {| ctx_cancelled := false |} |};
     pump := Some (takeSnapshot numeric_op_driver conf_db_c);
     disconnects := 0 |}.

(** A configuration with all four fields. *)
Definition sample_conf : ParsedConfig :=
  {| FieldString := λ k,
       if bool_decide (k = "uri") then Ok "mongodb://h"
       else if bool_decide (k = "database") then Ok "db"
       else if bool_decide (k = "collection") then Ok "c"
       else Failed (Err "field not found");
     FieldBool := λ k,
       if bool_decide (k = "stream_snapshot") then Ok true
       else Failed (Err "field not found") |}.

(** A server that accepts the connection but refuses the scan. *)
Definition find_failing_driver : driver :=
  {| mongo_Connect := λ u, Ok (MkClient u);
     coll_Find := Failed (Err "not authorized on db");
     coll_Watch := Ok {| stream_batch := Ok <$> [raw_update] |};
     client_Disconnect := λ _, None |}.




(** A delete event that lacks its [documentKey]. *)
Definition raw_delete_no_key : gmap string value :=
  <["operationType" := VString "delete"]> ∅.

(** The connector after [Connect] against [sample_driver], snapshot mode. *)
Definition snapshot_connected : sys :=
  {| self := {| uri := "mongodb://h"; database := "db"; collection := "c";
                client := Some (MkClient "mongodb://h");
                streamSnapshot := true;
                context := Some {| ctx_cancelled := false |} |};
     pump := Some (takeSnapshot sample_driver conf_db_c);
     disconnects := 0 |}.

(** A collection whose second document has a numeric [operationType]
    field, followed by one update. *)
Definition mixed_scan_driver : driver :=
  {| mongo_Connect := λ u, Ok (MkClient u);
     coll_Find := Ok {| cursor_batch := Ok <$> [doc_5_a; raw_numeric_op; doc_1_2];
                        cursor_err := None |};
     coll_Watch := Ok {| stream_batch := Ok <$> [raw_update] |};
     client_Disconnect := λ _, None |}.

(** The message of [raw_update] under [sample_Marshal]. *)
Definition update_message : read_result :=
  {| r_msg := {| body := String.list_byte_of_string "{}";
                 meta := <["event" := "update"]>
                           (<["schema" := "db"]> (<["table" := "c"]> ∅)) |};
     r_ack := ack_nil;
     r_err := None |}.

(** * Properties *)

(** ** The event built by [processMessage] *)

Lemma mk_event_action a m d : mk_event a m d !! "action" = Some a.
Proof. unfold mk_event. by simplify_map_eq. Qed.

Lemma mk_event_database a m d :
  mk_event a m d !! "database" = Some (VString (database m)).
Proof. unfold mk_event. by simplify_map_eq. Qed.

Lemma mk_event_collection a m d :
  mk_event a m d !! "collection" = Some (VString (collection m)).
Proof. unfold mk_event. by simplify_map_eq. Qed.

Lemma mk_event_data a m d : mk_event a m d !! "data" = Some d.
Proof. unfold mk_event. by simplify_map_eq. Qed.

Lemma eq_string_const_true v lit :
  eq_string_const v lit = true ↔ v = VString lit.
Proof.
  destruct v; simpl; try (split; [discriminate | congruence]).
  rewrite bool_decide_eq_true. split; congruence.
Qed.

Lemma eq_string_const_false v lit :
  v ≠ VString lit → eq_string_const v lit = false.
Proof.
  intros Hne. destruct (eq_string_const v lit) eqn:E; [| done].
  by apply eq_string_const_true in E.
Qed.

(** The scenarios listed with the testable properties. *)
Example scenario_update :
  processMessage_event conf_db_c raw_update
  = <["data" := VDoc doc_1_2]>
      (<["collection" := VString "c"]>
        (<["database" := VString "db"]> (<["action" := VString "update"]> ∅))).
Proof. reflexivity. Qed.

Example scenario_delete :
  processMessage_event conf_db_c raw_delete !! "action" = Some (VString "delete")
  ∧ processMessage_event conf_db_c raw_delete !! "data" = Some (VDoc key_1).
Proof. split; reflexivity. Qed.

Example scenario_plain :
  processMessage_event conf_db_c doc_5_a !! "action" = Some (VString "insert")
  ∧ processMessage_event conf_db_c doc_5_a !! "data" = Some (VDoc doc_5_a).
Proof. split; reflexivity. Qed.

(** C1. A record without [operationType] becomes an ["insert"] event whose
    payload is the record itself; a record whose [operationType] is
    ["delete"] gets its [documentKey] entry as payload, whatever its
    [fullDocument] entry is; a record with any other [operationType] value
    keeps that value as action and gets its [fullDocument] entry as
    payload. *)
Theorem processMessage_event_cases (m : mongoStreamInput) (data : gmap string value) :
  (data !! "operationType" = None →
     processMessage_event m data !! "action" = Some (VString "insert")
     ∧ processMessage_event m data !! "data" = Some (VDoc data))
  ∧ (data !! "operationType" = Some (VString "delete") →
     processMessage_event m data !! "data" = Some (index data "documentKey")
     ∧ ∀ full : value,
         processMessage_event m (<["fullDocument" := full]> data) !! "data"
         = Some (index data "documentKey"))
  ∧ (∀ operation : value,
       data !! "operationType" = Some operation →
       operation ≠ VString "delete" →
       processMessage_event m data !! "action" = Some operation
       ∧ processMessage_event m data !! "data" = Some (index data "fullDocument")).
Proof.
  unfold processMessage_event. split; [| split].
  - intros ->. by rewrite mk_event_action, mk_event_data.
  - intros Hop. split.
    + rewrite Hop. simpl. apply mk_event_data.
    + intros full. rewrite lookup_insert_ne by done. rewrite Hop. simpl.
      rewrite mk_event_data. unfold index. by rewrite !lookup_insert_ne.
  - intros operation Hop Hne. rewrite Hop.
    rewrite (eq_string_const_false _ _ Hne).
    by rewrite mk_event_action, mk_event_data.
Qed.

Lemma processMessage_event_cases_witness :
  (processMessage_event conf_db_c doc_5_a !! "action" = Some (VString "insert")
   ∧ processMessage_event conf_db_c doc_5_a !! "data" = Some (VDoc doc_5_a))
  ∧ (processMessage_event conf_db_c raw_delete !! "data"
     = Some (index raw_delete "documentKey"))
  ∧ (processMessage_event conf_db_c raw_update !! "action" = Some (VString "update")
     ∧ processMessage_event conf_db_c raw_update !! "data"
       = Some (index raw_update "fullDocument")).
Proof.
  split; [| split].
  - apply (proj1 (processMessage_event_cases conf_db_c doc_5_a)). reflexivity.
  - apply (proj1 (proj2 (processMessage_event_cases conf_db_c raw_delete))).
    reflexivity.
  - apply (proj2 (proj2 (processMessage_event_cases conf_db_c raw_update))
             (VString "update")).
    + reflexivity.
    + discriminate.
Defined.

Lemma processMessage_event_names m data :
  processMessage_event m data !! "database" = Some (VString (database m))
  ∧ processMessage_event m data !! "collection" = Some (VString (collection m)).
Proof.
  unfold processMessage_event.
  destruct (data !! "operationType") as [op |]; [destruct (eq_string_const op "delete") |];
    by rewrite mk_event_database, mk_event_collection.
Qed.

(** C6. Whatever the raw record is, the event's [database] and
    [collection] entries are the connector's configured names (so they do
    not vary with the record, even when the record has fields of those
    names), and the payload is the record itself or one of its two entries
    [documentKey] and [fullDocument], unchanged. *)
Theorem processMessage_event_static (m : mongoStreamInput) (data : gmap string value) :
  processMessage_event m data !! "database" = Some (VString (database m))
  ∧ processMessage_event m data !! "collection" = Some (VString (collection m))
  ∧ (∀ data' : gmap string value,
       processMessage_event m data' !! "database" = processMessage_event m data !! "database"
       ∧ processMessage_event m data' !! "collection" = processMessage_event m data !! "collection")
  ∧ (processMessage_event m data !! "data" = Some (VDoc data)
     ∨ processMessage_event m data !! "data" = Some (index data "documentKey")
     ∨ processMessage_event m data !! "data" = Some (index data "fullDocument")).
Proof.
  pose proof (processMessage_event_names m) as Hs.
  destruct (Hs data) as [Hd Hc]. repeat split; try done.
  - rewrite Hd. apply Hs.
  - rewrite Hc. apply Hs.
  - unfold processMessage_event.
    destruct (data !! "operationType") as [op |]; [destruct (eq_string_const op "delete") |];
      rewrite mk_event_data; auto.
Qed.

(** ** Traces of the goroutine *)

Lemma trace_bind {A B : Type} (f : A → proc B) (p : proc A) :
  proc_end p = None → ∃ a, trace (p ≫= f) = trace p ++ trace (f a).
Proof.
  unfold mbind, proc_mbind.
  induction p as [a | e | c k IH | ev k IH]; simpl; intros Hend.
  - by exists a.
  - discriminate.
  - destruct (IH Hend) as [a ->]. by exists a.
  - destruct (IH Hend) as [a ->]. by exists a.
Qed.

Lemma trace_seq {B : Type} (p : proc unit) (q : proc B) :
  proc_end p = None → trace (p ;; q) = trace p ++ trace q.
Proof. intros Hend. by destruct (trace_bind (λ _, q) p Hend) as [[] ->]. Qed.

Lemma proc_end_seq {B : Type} (p : proc unit) (q : proc B) :
  proc_end p = None → proc_end (p ;; q) = proc_end q.
Proof.
  unfold mbind, proc_mbind.
  induction p as [a | e | c k IH | ev k IH]; simpl; intros Hend; auto.
  discriminate.
Qed.

Lemma trace_defer {A : Type} (c : driver_call) (p : proc A) :
  trace (defer c p) = trace p ++ [Called c].
Proof. induction p; simpl; congruence. Qed.

Lemma proc_end_defer {A : Type} (c : driver_call) (p : proc A) :
  proc_end (defer c p) = proc_end p.
Proof. induction p; simpl; congruence. Qed.

Lemma iterateCursor_loop_trace m (ds : list (gmap string value)) :
  trace (iterateCursor_loop m (Ok <$> ds)) = Sent <$> (processMessage_event m <$> ds)
  ∧ proc_end (iterateCursor_loop m (Ok <$> ds)) = None.
Proof.
  induction ds as [| d ds [IHt IHe]]; [done |].
  split; [| exact IHe]. cbn. f_equal. exact IHt.
Qed.

Lemma iterateChangeStream_loop_trace m (es : list (gmap string value)) :
  trace (iterateChangeStream_loop m (Ok <$> es)) = Sent <$> (processMessage_event m <$> es)
  ∧ proc_end (iterateChangeStream_loop m (Ok <$> es)) = None.
Proof.
  induction es as [| d es [IHt IHe]]; [done |].
  split; [| exact IHe]. cbn. f_equal. exact IHt.
Qed.

(** With decode failures allowed: whatever the stream loop sends comes
    from a record of the stream, and it calls nothing. *)
Lemma iterateChangeStream_loop_sends m batch :
  Forall (λ st, ∃ data, Ok data ∈ batch ∧ st = Sent (processMessage_event m data))
    (trace (iterateChangeStream_loop m batch)).
Proof.
  induction batch as [| [data | e] rest IH]; simpl; [constructor | | constructor].
  constructor.
  - exists data. split; [left | done].
  - eapply Forall_impl; [exact IH |]. intros st (d & Hin & ->).
    exists d. split; [by right | done].
Qed.

Lemma omap_sent_fmap (evs : list (gmap string value)) :
  omap step_sent (Sent <$> evs) = evs.
Proof. induction evs as [| ev evs IH]; [done |]. cbn. by f_equal. Qed.

(** The event does not depend on the connection state of the connector,
    only on the two configured names. *)
Lemma processMessage_event_ext m m' data :
  database m = database m' → collection m = collection m' →
  processMessage_event m data = processMessage_event m' data.
Proof.
  intros Hd Hc. unfold processMessage_event, mk_event. by rewrite Hd, Hc.
Qed.

(** ** The channel hand-over *)

Lemma next_send_sends p ev k :
  next_send p = AtSend ev k → proc_sends p = ev :: proc_sends k.
Proof.
  unfold proc_sends.
  induction p as [a | e | c k' IH | ev' k' IH]; simpl; intros H; try discriminate.
  - auto.
  - by inversion H.
Qed.

Lemma next_send_finished_sends p :
  next_send p = Finished → proc_sends p = [].
Proof.
  unfold proc_sends.
  induction p as [a | e | c k IH | ev k IH]; simpl; intros H; try discriminate; auto.
Qed.

Lemma next_send_crashed_sends p e :
  next_send p = Crashed e → proc_sends p = [].
Proof.
  unfold proc_sends.
  induction p as [a | e' | c k IH | ev k IH]; simpl; intros H; try discriminate; auto.
Qed.

Section Reading.

Variable json_Marshal : value → result (list Byte.byte).

Lemma Read_returned s r s' :
  Read json_Marshal s = Returned r s' →
  ∃ p ev k, pump s = Some p ∧ next_send p = AtSend ev k
            ∧ Read_event json_Marshal ev = Some r ∧ s' = set_pump k s.
Proof.
  unfold Read. destruct (pump s) as [p |]; [| discriminate].
  destruct (next_send p) as [ev k | |] eqn:Hn; try discriminate.
  destruct (Read_event json_Marshal ev) as [r' |] eqn:Hr; [| discriminate].
  intros [= <- <-]. by exists p, ev, k.
Qed.

Lemma Read_at_send s p ev k r :
  pump s = Some p → next_send p = AtSend ev k →
  Read_event json_Marshal ev = Some r →
  Read json_Marshal s = Returned r (set_pump k s).
Proof. intros Hp Hn Hr. unfold Read. by rewrite Hp, Hn, Hr. Qed.

(** When every pending event can be turned into a message, as many
    reads as there are pending events return them one by one, in the
    order of the sends. *)
Lemma Read_n_all (n : nat) : ∀ (p : proc unit) (s : sys),
  pump s = Some p →
  Forall (λ ev, is_Some (Read_event json_Marshal ev)) (proc_sends p) →
  (length (proc_sends p) ≤ n)%nat →
  Some <$> Read_n json_Marshal n s = Read_event json_Marshal <$> proc_sends p.
Proof.
  induction n as [| n IH]; intros p s Hp Hall Hlen.
  - destruct (proc_sends p); [done | simpl in Hlen; lia].
  - simpl. unfold Read at 1. rewrite Hp.
    destruct (next_send p) as [ev k | | e] eqn:Hns.
    + pose proof (next_send_sends _ _ _ Hns) as Hs. rewrite Hs in *.
      apply Forall_cons in Hall as [[r Hr] Hall]. rewrite Hr. simpl.
      rewrite Hr. f_equal. apply IH; [done | done | simpl in Hlen; lia].
    + by rewrite (next_send_finished_sends p Hns).
    + by rewrite (next_send_crashed_sends p e Hns).
Qed.

(** Whatever the events are, the results of successive reads follow the
    order of the sends. *)
Lemma Read_n_prefix (n : nat) : ∀ (p : proc unit) (s : sys),
  pump s = Some p →
  (Some <$> Read_n json_Marshal n s)
    `prefix_of` (Read_event json_Marshal <$> proc_sends p).
Proof.
  induction n as [| n IH]; intros p s Hp; [apply prefix_nil |].
  simpl. destruct (Read json_Marshal s) as [r s' | | |] eqn:HR;
    try apply prefix_nil.
  apply Read_returned in HR as (p' & ev & k & Hp' & Hns & Hr & ->).
  rewrite Hp in Hp'. injection Hp' as <-.
  rewrite (next_send_sends _ _ _ Hns). simpl. rewrite Hr.
  apply prefix_cons. by apply IH.
Qed.

(** Whatever a read returns is the message of an event the goroutine
    sends. *)
Lemma Read_n_from_sends (n : nat) : ∀ s p r,
  pump s = Some p → r ∈ Read_n json_Marshal n s →
  ∃ ev, ev ∈ proc_sends p ∧ Read_event json_Marshal ev = Some r.
Proof.
  induction n as [| n IH]; intros s p r Hp Hin; simpl in Hin.
  - by apply elem_of_nil in Hin.
  - destruct (Read json_Marshal s) as [r' s' | | |] eqn:HR;
      try by apply elem_of_nil in Hin.
    apply Read_returned in HR as (p' & ev & k & Hp' & Hns & Hr & ->).
    rewrite Hp in Hp'. injection Hp' as <-.
    rewrite (next_send_sends _ _ _ Hns).
    apply elem_of_cons in Hin as [-> | Hin].
    + exists ev. split; [left | done].
    + destruct (IH (set_pump k s) k r eq_refl Hin) as (ev' & Hin' & Hr').
      exists ev'. split; [by right | done].
Qed.

End Reading.

(** ** Messages of events built by [processMessage] *)

Lemma processMessage_event_action m data :
  index (processMessage_event m data) "action"
  = default (VString "insert") (data !! "operationType").
Proof.
  unfold index, processMessage_event.
  destruct (data !! "operationType") as [op |]; [destruct (eq_string_const op "delete") |];
    by rewrite mk_event_action.
Qed.

Lemma Read_event_processMessage json_Marshal m data :
  string_operation data →
  is_Some (Read_event json_Marshal (processMessage_event m data)).
Proof.
  intros Hop. unfold Read_event.
  destruct (processMessage_event_names m data) as (Hd & Hc).
  assert (Hd' : index (processMessage_event m data) "database" = VString (database m))
    by (unfold index; by rewrite Hd).
  assert (Hc' : index (processMessage_event m data) "collection" = VString (collection m))
    by (unfold index; by rewrite Hc).
  rewrite Hd', Hc'. simpl.
  rewrite processMessage_event_action. unfold string_operation in Hop.
  destruct (data !! "operationType") as [op |]; simpl.
  - destruct Hop as [a ->]. by eexists.
  - by eexists.
Qed.

(** ** Snapshot, then tail *)

Lemma takeSnapshot_trace w m (ds es : list (gmap string value)) :
  coll_Find w = Ok {| cursor_batch := Ok <$> ds; cursor_err := None |} →
  coll_Watch w = Ok {| stream_batch := Ok <$> es |} →
  trace (takeSnapshot w m)
  = [Called CallFind; Called CallPrintln]
    ++ (Sent <$> (processMessage_event m <$> ds))
    ++ [Called CallCursorClose; Called CallWatch]
    ++ (Sent <$> (processMessage_event m <$> es))
    ++ [Called CallStreamClose].
Proof.
  intros HF HW. unfold takeSnapshot. rewrite HF, HW. simpl trace.
  destruct (iterateCursor_loop_trace m ds) as [Hct Hce].
  destruct (iterateChangeStream_loop_trace m es) as [Hst _].
  assert (Hend : proc_end (iterateCursor m
            {| cursor_batch := Ok <$> ds; cursor_err := None |}) = None).
  { unfold iterateCursor. rewrite proc_end_defer. simpl.
    by rewrite proc_end_seq. }
  rewrite (trace_seq _ _ Hend). unfold iterateCursor, iterateChangeStream.
  simpl. rewrite !trace_defer, (trace_seq _ _ Hce), Hct, Hst. simpl.
  rewrite app_nil_r, <- !app_assoc. reflexivity.
Qed.

(** C2, as the claim states it, fails: with a stored document whose
    [operationType] is a number in the scan, the goroutine does offer the
    events of all records in order, but the read that receives the event
    of that document panics, so the reads return the message of the first
    document only and not the messages of [d1..dn], [e1..em]. *)
Lemma snapshot_numeric_operation_stops_reads :
  ∃ s1 : sys,
    Connect mixed_scan_driver (new_sys "mongodb://h" "db" "c" true) = Returned None s1
    ∧ proc_sends (default (Ret tt) (pump s1))
      = processMessage_event conf_db_c
          <$> ([doc_5_a; raw_numeric_op; doc_1_2] ++ [raw_update])
    ∧ Some <$> Read_n sample_Marshal 4 s1
      = [Read_event sample_Marshal (processMessage_event conf_db_c doc_5_a)]
    ∧ Some <$> Read_n sample_Marshal 4 s1
      ≠ Read_event sample_Marshal
          <$> (processMessage_event conf_db_c
                 <$> ([doc_5_a; raw_numeric_op; doc_1_2] ++ [raw_update]))
    ∧ Read_nth sample_Marshal 1 s1
      = Panicked (Err "interface conversion: interface {} is not string").
Proof.
  eexists. split; [reflexivity |]. split; [reflexivity |].
  split; [reflexivity |]. split; [| reflexivity].
  intros H. apply (f_equal length) in H. vm_compute in H. discriminate.
Qed.

(** C2, amended. In snapshot mode, when the driver answers without error,
    the goroutine runs the scan to its end, sending the event of every
    snapshot document and closing the cursor, before it opens the change
    stream. The results of successive reads always follow the order
    [d1..dn], [e1..em] of the events; and when every record can be turned
    into a message ([operationType] absent or a string), the reads return
    exactly the messages of the events of [d1..dn] and then of [e1..em],
    and nothing after them. *)
Theorem snapshot_then_tail_order (w : driver)
    (json_Marshal : value → result (list Byte.byte)) (s : sys)
    (c : mongo_Client) (ds es : list (gmap string value)) :
  streamSnapshot (self s) = true →
  mongo_Connect w (uri (self s)) = Ok c →
  coll_Find w = Ok {| cursor_batch := Ok <$> ds; cursor_err := None |} →
  coll_Watch w = Ok {| stream_batch := Ok <$> es |} →
  ∃ (s' : sys) (p : proc unit),
    Connect w s = Returned None s'
    ∧ pump s' = Some p
    ∧ trace p
      = [Called CallFind; Called CallPrintln]
        ++ (Sent <$> (processMessage_event (self s) <$> ds))
        ++ [Called CallCursorClose; Called CallWatch]
        ++ (Sent <$> (processMessage_event (self s) <$> es))
        ++ [Called CallStreamClose]
    ∧ (∀ n : nat,
         (Some <$> Read_n json_Marshal n s')
           `prefix_of` (Read_event json_Marshal
                          <$> (processMessage_event (self s) <$> (ds ++ es))))
    ∧ (Forall string_operation (ds ++ es) →
       ∀ n : nat,
         (length ds + length es ≤ n)%nat →
         Some <$> Read_n json_Marshal n s'
         = Read_event json_Marshal <$> (processMessage_event (self s) <$> (ds ++ es))).
Proof.
  intros Hsnap Hconn HF HW. unfold Connect. rewrite Hconn, Hsnap.
  eexists _, _. split; [reflexivity |]. split; [reflexivity |].
  set (m' := {| uri := uri (self s); client := Some c |}).
  assert (Htr := takeSnapshot_trace w m' ds es HF HW).
  assert (Hmap : ∀ l, processMessage_event m' <$> l = processMessage_event (self s) <$> l)
    by (intros l; apply list_fmap_ext; intros; by apply processMessage_event_ext).
  rewrite (Hmap ds), (Hmap es) in Htr. split; [exact Htr |].
  assert (Hsends : proc_sends (takeSnapshot w m')
                   = processMessage_event (self s) <$> (ds ++ es)).
  { unfold proc_sends. rewrite Htr.
    rewrite !omap_app, !omap_sent_fmap. simpl.
    by rewrite app_nil_r, fmap_app. }
  split.
  - intros n. rewrite <- Hsends. by apply Read_n_prefix.
  - intros Hall n Hn. rewrite <- Hsends. apply Read_n_all; [done | |].
    + rewrite Hsends. apply Forall_fmap. eapply Forall_impl; [exact Hall |].
      intros d Hd. by apply Read_event_processMessage.
    + by rewrite Hsends, length_fmap, length_app.
Qed.

Lemma snapshot_then_tail_order_witness :
  ∃ (s' : sys) (p : proc unit),
    Connect sample_driver (new_sys "mongodb://h" "db" "c" true) = Returned None s'
    ∧ pump s' = Some p
    ∧ trace p
      = [Called CallFind; Called CallPrintln]
        ++ (Sent <$> (processMessage_event conf_db_c <$> [doc_5_a]))
        ++ [Called CallCursorClose; Called CallWatch]
        ++ (Sent <$> (processMessage_event conf_db_c <$> [raw_update; raw_delete]))
        ++ [Called CallStreamClose]
    ∧ Some <$> Read_n sample_Marshal 3 s'
      = Read_event sample_Marshal
          <$> (processMessage_event conf_db_c <$> [doc_5_a; raw_update; raw_delete]).
Proof.
  destruct (snapshot_then_tail_order sample_driver sample_Marshal
              (new_sys "mongodb://h" "db" "c" true) (MkClient "mongodb://h")
              [doc_5_a] [raw_update; raw_delete] eq_refl eq_refl eq_refl eq_refl)
    as (s' & p & HC & Hp & Htr & _ & Hall).
  exists s', p. split; [exact HC |]. split; [exact Hp |]. split; [exact Htr |].
  apply Hall; [| simpl; lia].
  repeat constructor; vm_compute; eauto.
Defined.

(** ** Tail only *)

Lemma omap_called_sent (t : list step) :
  Forall (λ st, ∃ ev, st = Sent ev) t → omap step_called t = [].
Proof.
  induction 1 as [| st t [ev ->] _ IH]; [done |]. cbn. exact IH.
Qed.

(** C7. In tail-only mode [Connect] itself opens the change stream and
    spawns a goroutine that never calls Find: its only driver call is
    closing the stream. Every event it sends, and so every message a read
    returns, is the event of a record of that change stream, whatever the
    collection holds. *)
Theorem tail_only_no_snapshot (w : driver)
    (json_Marshal : value → result (list Byte.byte)) (s : sys)
    (c : mongo_Client) (stream : mongo_ChangeStream) :
  streamSnapshot (self s) = false →
  mongo_Connect w (uri (self s)) = Ok c →
  coll_Watch w = Ok stream →
  ∃ (s' : sys) (p : proc unit),
    Connect w s = Returned None s'
    ∧ pump s' = Some p
    ∧ proc_calls p = [CallStreamClose]
    ∧ (CallFind ∉ proc_calls p)
    ∧ (∀ ev, ev ∈ proc_sends p →
         ∃ data, Ok data ∈ stream_batch stream
                 ∧ ev = processMessage_event (self s) data)
    ∧ (∀ n r, r ∈ Read_n json_Marshal n s' →
         ∃ data, Ok data ∈ stream_batch stream
                 ∧ Read_event json_Marshal (processMessage_event (self s) data) = Some r).
Proof.
  intros Hsnap Hconn HW. unfold Connect. rewrite Hconn, Hsnap, HW.
  eexists _, _. split; [reflexivity |]. split; [reflexivity |].
  set (m' := {| uri := uri (self s); client := Some c |}).
  pose proof (iterateChangeStream_loop_sends m' (stream_batch stream)) as Hall.
  assert (Hcalls : proc_calls (iterateChangeStream m' stream) = [CallStreamClose]).
  { unfold proc_calls, iterateChangeStream. rewrite trace_defer, omap_app.
    rewrite omap_called_sent; [done |].
    eapply Forall_impl; [exact Hall |]. intros st (d & _ & ->). by eexists. }
  assert (Hsends : ∀ ev, ev ∈ proc_sends (iterateChangeStream m' stream) →
            ∃ data, Ok data ∈ stream_batch stream
                    ∧ ev = processMessage_event (self s) data).
  { intros ev. unfold proc_sends, iterateChangeStream.
    rewrite trace_defer, omap_app. simpl. rewrite app_nil_r.
    intros Hin. apply list_elem_of_omap in Hin as (st & Hst & Hev).
    rewrite Forall_forall in Hall. destruct (Hall st Hst) as (d & Hd & ->).
    injection Hev as <-. by exists d. }
  split; [exact Hcalls |]. split.
  { rewrite Hcalls. intros Hin. apply list_elem_of_singleton in Hin. discriminate. }
  split; [exact Hsends |].
  intros n r Hin.
  match type of Hin with context [Read_n _ _ ?st] => set (s1 := st) in Hin end.
  destruct (Read_n_from_sends json_Marshal n s1 _ r eq_refl Hin) as (ev & Hev & Hr).
  destruct (Hsends ev Hev) as (d & Hd & ->). by exists d.
Qed.

Lemma tail_only_no_snapshot_witness :
  ∃ (s' : sys) (p : proc unit),
    Connect sample_driver (new_sys "mongodb://h" "db" "c" false) = Returned None s'
    ∧ pump s' = Some p
    ∧ proc_calls p = [CallStreamClose]
    ∧ (CallFind ∉ proc_calls p)
    ∧ (∀ ev, ev ∈ proc_sends p →
         ∃ data, Ok data ∈ (Ok <$> [raw_update; raw_delete])
                 ∧ ev = processMessage_event conf_db_c data)
    ∧ (∀ n r, r ∈ Read_n sample_Marshal n s' →
         ∃ data, Ok data ∈ (Ok <$> [raw_update; raw_delete])
                 ∧ Read_event sample_Marshal (processMessage_event conf_db_c data) = Some r).
Proof.
  exact (tail_only_no_snapshot sample_driver sample_Marshal
           (new_sys "mongodb://h" "db" "c" false) (MkClient "mongodb://h")
           {| stream_batch := Ok <$> [raw_update; raw_delete] |}
           eq_refl eq_refl eq_refl).
Defined.

(** ** [Close] *)

Lemma Close_connected w s c :
  client (self s) = Some c →
  Close w s = Returned (client_Disconnect w (disconnects s))
                {| self := self s; pump := pump s; disconnects := S (disconnects s) |}.
Proof. intros Hc. unfold Close. by rewrite Hc. Qed.









(** ** [Connect] *)

Lemma proc_end_seq_panics {B : Type} (p : proc unit) (q : proc B) :
  is_Some (proc_end q) → is_Some (proc_end (p ;; q)).
Proof.
  unfold mbind, proc_mbind. intros Hq.
  induction p as [a | e | c k IH | ev k IH]; simpl; eauto.
Qed.

Lemma takeSnapshot_Watch_failure w m e :
  coll_Watch w = Failed e → is_Some (proc_end (takeSnapshot w m)).
Proof.
  intros HW. unfold takeSnapshot. rewrite HW. simpl.
  destruct (coll_Find w) as [cursor | e']; simpl; [| by eexists].
  apply proc_end_seq_panics. simpl. by eexists.
Qed.

(** C4, as the claim states it, fails: when the connection cannot be
    established [Connect] does not return the error, or anything. *)
Lemma Connect_failure_not_returned :
  mongo_Connect refusing_driver "not a uri" = Failed (Err "error parsing uri")
  ∧ Connect refusing_driver (new_sys "not a uri" "db" "c" false)
    = Panicked (Err "error parsing uri")
  ∧ ∀ r s', Connect refusing_driver (new_sys "not a uri" "db" "c" false)
            ≠ Returned r s'.
Proof. split; [reflexivity |]. split; [reflexivity |]. intros r s'. discriminate. Qed.

(** C4, amended. [Connect] never returns an error: whatever it returns is
    [nil]. When [mongo.Connect] fails, and in tail-only mode when opening
    the change stream fails, [Connect] panics with that error and no
    goroutine is spawned. In snapshot mode [Connect] does not open the
    change stream: it returns [nil], and a failure to open the stream is
    a panic of the goroutine. *)
Theorem Connect_failure_panics (w : driver) (s : sys) :
  (∀ r s', Connect w s = Returned r s' → r = None)
  ∧ (∀ e, mongo_Connect w (uri (self s)) = Failed e → Connect w s = Panicked e)
  ∧ (∀ c e, mongo_Connect w (uri (self s)) = Ok c →
            streamSnapshot (self s) = false →
            coll_Watch w = Failed e →
            Connect w s = Panicked e)
  ∧ (∀ c e, mongo_Connect w (uri (self s)) = Ok c →
            streamSnapshot (self s) = true →
            coll_Watch w = Failed e →
            ∃ s' p, Connect w s = Returned None s'
                    ∧ pump s' = Some p
                    ∧ is_Some (proc_end p)).
Proof.
  unfold Connect. split; [| split; [| split]].
  - intros r s'. destruct (mongo_Connect w (uri (self s))); [| discriminate].
    destruct (streamSnapshot (self s)); [congruence |].
    destruct (coll_Watch w); [congruence | discriminate].
  - by intros e ->.
  - by intros c e -> -> ->.
  - intros c e -> -> HW. eexists _, _. split; [reflexivity |].
    split; [reflexivity |]. by apply (takeSnapshot_Watch_failure w _ e).
Qed.

Lemma Connect_failure_panics_witness :
  Connect refusing_driver (new_sys "not a uri" "db" "c" false)
  = Panicked (Err "error parsing uri")
  ∧ Connect
      unauthorized_driver
      (new_sys "mongodb://h" "db" "c" false)
    = Panicked (Err "not authorized")
  ∧ ∃ s' p,
      Connect
        unauthorized_driver
        (new_sys "mongodb://h" "db" "c" true)
      = Returned None s'
      ∧ pump s' = Some p
      ∧ is_Some (proc_end p).
Proof.
  split; [| split].
  - apply (proj1 (proj2 (Connect_failure_panics refusing_driver
                           (new_sys "not a uri" "db" "c" false)))).
    reflexivity.
  - apply (proj1 (proj2 (proj2 (Connect_failure_panics _
                           (new_sys "mongodb://h" "db" "c" false))))
             (MkClient "mongodb://h")); reflexivity.
  - apply (proj2 (proj2 (proj2 (Connect_failure_panics _
                           (new_sys "mongodb://h" "db" "c" true))))
             (MkClient "mongodb://h") (Err "not authorized")); reflexivity.
Defined.

(** ** [Read] *)

Lemma Read_event_strings json_Marshal ev table schema event :
  index ev "collection" = VString table →
  index ev "database" = VString schema →
  index ev "action" = VString event →
  Read_event json_Marshal ev
  = Some {| r_msg := {| body := match json_Marshal (index ev "data") with
                                | Ok b => b
                                | Failed _ => []
                                end;
                        meta := <["event" := event]>
                                  (<["schema" := schema]> (<["table" := table]> ∅)) |};
            r_ack := ack_nil;
            r_err := None |}.
Proof. intros Hc Hd Ha. unfold Read_event. by rewrite Hc, Hd, Ha. Qed.




(** C9. [Read] drops the error of [json.Marshal]: when the payload of the
    received event cannot be encoded, the read still returns a message,
    with the empty body the failed encoding left, and a [nil] error. *)
Theorem Read_ignores_marshal_error
    (json_Marshal : value → result (list Byte.byte)) (s : sys) (p k : proc unit)
    (ev : gmap string value) (table schema event : string) (e : error) :
  pump s = Some p →
  next_send p = AtSend ev k →
  index ev "collection" = VString table →
  index ev "database" = VString schema →
  index ev "action" = VString event →
  json_Marshal (index ev "data") = Failed e →
  ∃ (r : read_result) (s' : sys),
    Read json_Marshal s = Returned r s'
    ∧ body (r_msg r) = []
    ∧ r_err r = None
    ∧ pump s' = Some k.
Proof.
  intros Hp Hn Hc Hd Ha He.
  pose proof (Read_event_strings json_Marshal ev table schema event Hc Hd Ha) as Hr.
  rewrite He in Hr.
  eexists _, _. split; [exact (Read_at_send json_Marshal s p ev k _ Hp Hn Hr) |].
  done.
Qed.

Lemma Read_ignores_marshal_error_witness :
  Connect nan_driver (new_sys "mongodb://h" "db" "c" true) = Returned None nan_connected
  ∧ sample_Marshal (VDoc raw_nan) = Failed (Err "json: unsupported value")
  ∧ ∃ (r : read_result) (s' : sys),
      Read sample_Marshal nan_connected = Returned r s'
      ∧ body (r_msg r) = []
      ∧ r_err r = None.
Proof.
  split; [reflexivity |]. split; [reflexivity |].
  edestruct (Read_ignores_marshal_error sample_Marshal nan_connected)
    as (r & s' & HR & Hb & He & _).
  - reflexivity.
  - cbn. reflexivity.
  - reflexivity.
  - reflexivity.
  - reflexivity.
  - reflexivity.
  - by exists r, s'.
Defined.

(** C10. The three type assertions of [Read] are unchecked, and the
    action of an event is the record's [operationType] as it is: a read
    that receives the event of a record whose [operationType] is not a
    string panics. *)
Theorem Read_panics_on_non_string_operation
    (json_Marshal : value → result (list Byte.byte)) (m : mongoStreamInput)
    (data : gmap string value) (operation : value)
    (s : sys) (p k : proc unit) :
  data !! "operationType" = Some operation →
  assert_string operation = None →
  pump s = Some p →
  next_send p = AtSend (processMessage_event m data) k →
  index (processMessage_event m data) "action" = operation
  ∧ Read json_Marshal s
    = Panicked (Err "interface conversion: interface {} is not string").
Proof.
  intros Hop Hns Hp Hn.
  assert (Ha : index (processMessage_event m data) "action" = operation)
    by (rewrite processMessage_event_action; by rewrite Hop).
  split; [exact Ha |].
  unfold Read. rewrite Hp, Hn. unfold Read_event. rewrite Ha, Hns.
  destruct (assert_string (index (processMessage_event m data) "collection"));
    [| done].
  by destruct (assert_string (index (processMessage_event m data) "database")).
Qed.

Lemma Read_panics_on_non_string_operation_witness :
  Connect numeric_op_driver (new_sys "mongodb://h" "db" "c" true)
  = Returned None numeric_connected
  ∧ raw_numeric_op !! "operationType" = Some (VInt 5)
  ∧ index (processMessage_event conf_db_c raw_numeric_op) "action" = VInt 5
  ∧ Read sample_Marshal numeric_connected
    = Panicked (Err "interface conversion: interface {} is not string").
Proof.
  split; [reflexivity |]. split; [reflexivity |].
  eapply (Read_panics_on_non_string_operation sample_Marshal conf_db_c
            raw_numeric_op (VInt 5) numeric_connected).
  - reflexivity.
  - reflexivity.
  - reflexivity.
  - cbn. reflexivity.
Defined.

(** * Further properties *)

(** ** From record to message *)

Lemma processMessage_event_data m data :
  index (processMessage_event m data) "data"
  = match data !! "operationType" with
    | None => VDoc data
    | Some operation =>
        index data (if eq_string_const operation "delete"
                    then "documentKey" else "fullDocument")
    end.
Proof.
  unfold index at 1. unfold processMessage_event.
  destruct (data !! "operationType") as [op |]; [destruct (eq_string_const op "delete") |];
    by rewrite mk_event_data.
Qed.

Lemma processMessage_event_index_names m data :
  index (processMessage_event m data) "collection" = VString (collection m)
  ∧ index (processMessage_event m data) "database" = VString (database m).
Proof.
  destruct (processMessage_event_names m data) as [Hd Hc].
  unfold index. by rewrite Hd, Hc.
Qed.

Lemma Read_event_action_not_string json_Marshal ev :
  assert_string (index ev "action") = None → Read_event json_Marshal ev = None.
Proof.
  intros Ha. unfold Read_event. rewrite Ha.
  destruct (assert_string (index ev "collection")); [| done].
  by destruct (assert_string (index ev "database")).
Qed.



(** X2. A record can be turned into a message exactly when its
    [operationType] is absent or a string: the type assertions on the
    collection and the database never fail, the one on the action fails
    for every other [operationType]. *)
Theorem Read_event_defined_iff
    (json_Marshal : value → result (list Byte.byte))
    (m : mongoStreamInput) (data : gmap string value) :
  is_Some (Read_event json_Marshal (processMessage_event m data))
  ↔ string_operation data.
Proof.
  split; [| apply Read_event_processMessage].
  intros [r Hr]. unfold string_operation.
  destruct (data !! "operationType") as [op |] eqn:Hop; [| done].
  destruct (assert_string op) as [a |] eqn:Ha; [by eexists |].
  rewrite Read_event_action_not_string in Hr; [discriminate |].
  rewrite processMessage_event_action, Hop. exact Ha.
Qed.

(** X3. A missing sub-record is not an error: when the entry the payload
    is taken from ([documentKey] for a delete, [fullDocument] for every
    other string [operationType]) is absent, the payload is [nil] and the
    message is still produced, with the JSON text of [nil] as body. This
    is also what becomes of a stored document that has a string field
    named [operationType]. *)
Theorem missing_subrecord_nil_payload
    (json_Marshal : value → result (list Byte.byte))
    (m : mongoStreamInput) (data : gmap string value) (op : string) :
  data !! "operationType" = Some (VString op) →
  data !! (if bool_decide (op = "delete") then "documentKey" else "fullDocument") = None →
  processMessage_event m data !! "data" = Some VNil
  ∧ ∃ r : read_result,
      Read_event json_Marshal (processMessage_event m data) = Some r
      ∧ body (r_msg r) = match json_Marshal VNil with
                         | Ok b => b
                         | Failed _ => []
                         end
      ∧ meta (r_msg r) !! "event" = Some op.
Proof.
  intros Hop Hmiss. split.
  - unfold processMessage_event. rewrite Hop. simpl.
    destruct (bool_decide (op = "delete")); rewrite mk_event_data;
      unfold index; by rewrite Hmiss.
  - destruct (processMessage_event_index_names m data) as [Hc Hd].
    pose proof (processMessage_event_action m data) as Ha.
    pose proof (processMessage_event_data m data) as Hp.
    rewrite Hop in Ha, Hp. simpl in Ha, Hp.
    eexists. split; [exact (Read_event_strings json_Marshal _ _ _ _ Hc Hd Ha) |].
    simpl. rewrite Hp. unfold index. rewrite Hmiss. simpl.
    split; [done | by simplify_map_eq].
Qed.

Lemma missing_subrecord_nil_payload_witness :
  processMessage_event conf_db_c raw_delete_no_key !! "data" = Some VNil
  ∧ ∃ r : read_result,
      Read_event sample_Marshal (processMessage_event conf_db_c raw_delete_no_key)
      = Some r
      ∧ body (r_msg r) = String.list_byte_of_string "null"
      ∧ meta (r_msg r) !! "event" = Some "delete".
Proof.
  exact (missing_subrecord_nil_payload sample_Marshal conf_db_c raw_delete_no_key
           "delete" eq_refl eq_refl).
Defined.

(** ** How the goroutine ends *)




Lemma omap_called_sends (evs : list (gmap string value)) :
  omap step_called (Sent <$> evs) = [].
Proof. induction evs as [| ev evs IH]; [done |]. cbn. exact IH. Qed.

Lemma next_send_finished_end p : next_send p = Finished → proc_end p = None.
Proof.
  induction p as [a | e | c k IH | ev k IH]; simpl; intros H; try discriminate; auto.
Qed.

Lemma next_send_crashed_end p e : next_send p = Crashed e → proc_end p = Some e.
Proof.
  induction p as [a | e' | c k IH | ev k IH]; simpl; intros H; try discriminate; auto.
  by injection H as ->.
Qed.

Lemma next_send_at_send_end p ev k : next_send p = AtSend ev k → proc_end p = proc_end k.
Proof.
  induction p as [a | e' | c k' IH | ev' k' IH]; simpl; intros H; try discriminate; auto.
  by injection H as _ ->.
Qed.

Section Delivery.

Variable json_Marshal : value → result (list Byte.byte).

(** Once every pending event has been read, the next read meets the end
    of the goroutine: it waits for ever after a return, and the process
    is gone after a panic. *)
Lemma Read_nth_end (n : nat) : ∀ (p : proc unit) (s : sys),
  pump s = Some p →
  Forall (λ ev, is_Some (Read_event json_Marshal ev)) (proc_sends p) →
  length (proc_sends p) = n →
  Read_nth json_Marshal n s
  = match proc_end p with
    | Some e => Aborted e
    | None => Blocked
    end.
Proof.
  induction n as [| n IH]; intros p s Hp Hall Hlen; simpl; unfold Read at 1;
    rewrite Hp; destruct (next_send p) as [ev k | | e] eqn:Hns.
  - rewrite (next_send_sends _ _ _ Hns) in Hlen. discriminate.
  - by rewrite (next_send_finished_end p Hns).
  - by rewrite (next_send_crashed_end p e Hns).
  - pose proof (next_send_sends _ _ _ Hns) as Hs. rewrite Hs in *.
    apply Forall_cons in Hall as [[r Hr] Hall]. rewrite Hr.
    rewrite (next_send_at_send_end _ _ _ Hns).
    apply IH; [done | done | simpl in Hlen; lia].
  - rewrite (next_send_finished_sends p Hns) in Hlen. discriminate.
  - rewrite (next_send_crashed_sends p e Hns) in Hlen. discriminate.
Qed.

Lemma readable_events m (ds : list (gmap string value)) :
  Forall string_operation ds →
  Forall (λ ev, is_Some (Read_event json_Marshal ev)) (processMessage_event m <$> ds).
Proof.
  intros Hall. apply Forall_fmap. eapply Forall_impl; [exact Hall |].
  intros d Hd. by apply Read_event_processMessage.
Qed.

(** What the reader sees of a goroutine that sends the events of [ds]
    and then ends. *)
Lemma delivery m (ds : list (gmap string value)) (p : proc unit) (s : sys) :
  pump s = Some p →
  proc_sends p = processMessage_event m <$> ds →
  Forall string_operation ds →
  (∀ n : nat, (length ds ≤ n)%nat →
     Some <$> Read_n json_Marshal n s
     = Read_event json_Marshal <$> (processMessage_event m <$> ds))
  ∧ Read_nth json_Marshal (length ds) s
    = match proc_end p with
      | Some e => Aborted e
      | None => Blocked
      end.
Proof.
  intros Hp Hs Hall. pose proof (readable_events m ds Hall) as Hr.
  rewrite <- Hs in Hr. split.
  - intros n Hn. rewrite <- Hs. apply Read_n_all; [done | done |].
    by rewrite Hs, length_fmap.
  - apply Read_nth_end; [done | done |]. by rewrite Hs, length_fmap.
Qed.

End Delivery.

Lemma sends_of_trace {A : Type} (p : proc A) (pre post : list step)
    (evs : list (gmap string value)) :
  trace p = pre ++ (Sent <$> evs) ++ post →
  omap step_sent pre = [] → omap step_sent post = [] →
  proc_sends p = evs.
Proof.
  intros Ht Hpre Hpost. unfold proc_sends.
  by rewrite Ht, !omap_app, Hpre, Hpost, omap_sent_fmap, app_nil_r.
Qed.

Lemma Connect_snapshot w s c :
  streamSnapshot (self s) = true →
  mongo_Connect w (uri (self s)) = Ok c →
  ∃ (s' : sys) (m' : mongoStreamInput),
    Connect w s = Returned None s'
    ∧ pump s' = Some (takeSnapshot w m')
    ∧ ∀ l : list (gmap string value),
        processMessage_event m' <$> l = processMessage_event (self s) <$> l.
Proof.
  intros Hsnap Hconn. unfold Connect. rewrite Hconn, Hsnap.
  eexists _, _. split; [reflexivity |]. split; [reflexivity |].
  intros l. apply list_fmap_ext. intros. by apply processMessage_event_ext.
Qed.

Lemma Connect_tail w s c stream :
  streamSnapshot (self s) = false →
  mongo_Connect w (uri (self s)) = Ok c →
  coll_Watch w = Ok stream →
  ∃ (s' : sys) (m' : mongoStreamInput),
    Connect w s = Returned None s'
    ∧ pump s' = Some (iterateChangeStream m' stream)
    ∧ ∀ l : list (gmap string value),
        processMessage_event m' <$> l = processMessage_event (self s) <$> l.
Proof.
  intros Hsnap Hconn HW. unfold Connect. rewrite Hconn, Hsnap, HW.
  eexists _, _. split; [reflexivity |]. split; [reflexivity |].
  intros l. apply list_fmap_ext. intros. by apply processMessage_event_ext.
Qed.


(** X4. Snapshot mode, the scan cannot be opened: [Connect] has already
    returned [nil]; the goroutine calls Find, prints, and panics with
    Find's error; it sends nothing and never opens the change stream, and
    the first read ends with the process. *)
Theorem snapshot_Find_failure (w : driver)
    (json_Marshal : value → result (list Byte.byte))
    (s : sys) (c : mongo_Client) (e : error) :
  streamSnapshot (self s) = true →
  mongo_Connect w (uri (self s)) = Ok c →
  coll_Find w = Failed e →
  ∃ (s' : sys) (p : proc unit),
    Connect w s = Returned None s'
    ∧ pump s' = Some p
    ∧ trace p = [Called CallFind; Called CallPrintln]
    ∧ proc_end p = Some e
    ∧ Read json_Marshal s' = Aborted e.
Proof.
  intros Hsnap Hconn HF.
  destruct (Connect_snapshot w s c Hsnap Hconn) as (s' & m' & HC & Hp & _).
  exists s', (takeSnapshot w m'). split; [exact HC |]. split; [exact Hp |].
  unfold Read. rewrite Hp. unfold takeSnapshot. rewrite HF. done.
Qed.

Lemma snapshot_Find_failure_witness :
  ∃ (s' : sys) (p : proc unit),
    Connect find_failing_driver (new_sys "mongodb://h" "db" "c" true) = Returned None s'
    ∧ pump s' = Some p
    ∧ trace p = [Called CallFind; Called CallPrintln]
    ∧ proc_end p = Some (Err "not authorized on db")
    ∧ Read sample_Marshal s' = Aborted (Err "not authorized on db").
Proof.
  exact (snapshot_Find_failure find_failing_driver sample_Marshal
           (new_sys "mongodb://h" "db" "c" true) (MkClient "mongodb://h")
           (Err "not authorized on db") eq_refl eq_refl eq_refl).
Defined.





Lemma iterateCursor_ok m (ds : list (gmap string value)) :
  trace (iterateCursor m {| cursor_batch := Ok <$> ds; cursor_err := None |})
  = (Sent <$> (processMessage_event m <$> ds)) ++ [Called CallCursorClose]
  ∧ proc_end (iterateCursor m {| cursor_batch := Ok <$> ds; cursor_err := None |})
    = None.
Proof.
  destruct (iterateCursor_loop_trace m ds) as [Hlt Hle].
  unfold iterateCursor. rewrite trace_defer, proc_end_defer. simpl.
  rewrite (trace_seq _ _ Hle), (proc_end_seq _ _ Hle). simpl.
  by rewrite app_nil_r, Hlt.
Qed.





(** X9. Tail-only mode, every record decodable: the goroutine sends the
    events of the change stream in order. The end of the stream is
    silent: no error of the stream is looked at, the goroutine closes the
    stream and returns. What the reads return is always an initial part
    of the messages of the change events; when every record has an
    absent or string [operationType], the reads return exactly those
    messages and nothing else, and the read after the last one waits for
    ever. *)
Theorem tail_only_order_and_end (w : driver)
    (json_Marshal : value → result (list Byte.byte))
    (s : sys) (c : mongo_Client) (es : list (gmap string value)) :
  streamSnapshot (self s) = false →
  mongo_Connect w (uri (self s)) = Ok c →
  coll_Watch w = Ok {| stream_batch := Ok <$> es |} →
  ∃ (s' : sys) (p : proc unit),
    Connect w s = Returned None s'
    ∧ pump s' = Some p
    ∧ trace p
      = (Sent <$> (processMessage_event (self s) <$> es)) ++ [Called CallStreamClose]
    ∧ proc_end p = None
    ∧ (∀ n : nat,
         (Some <$> Read_n json_Marshal n s')
           `prefix_of` (Read_event json_Marshal
                          <$> (processMessage_event (self s) <$> es)))
    ∧ (Forall string_operation es →
       (∀ n : nat, (length es ≤ n)%nat →
          Some <$> Read_n json_Marshal n s'
          = Read_event json_Marshal <$> (processMessage_event (self s) <$> es))
       ∧ Read_nth json_Marshal (length es) s' = Blocked).
Proof.
  intros Hsnap Hconn HW.
  destruct (Connect_tail w s c _ Hsnap Hconn HW) as (s' & m' & HC & Hp & Hm).
  eexists s', _. split; [exact HC |]. split; [exact Hp |].
  destruct (iterateChangeStream_loop_trace m' es) as [Hlt Hle].
  assert (Ht : trace (iterateChangeStream m' {| stream_batch := Ok <$> es |})
               = (Sent <$> (processMessage_event (self s) <$> es))
                 ++ [Called CallStreamClose]).
  { unfold iterateChangeStream. rewrite trace_defer. simpl. by rewrite Hlt, Hm. }
  assert (He : proc_end (iterateChangeStream m' {| stream_batch := Ok <$> es |}) = None).
  { unfold iterateChangeStream. by rewrite proc_end_defer. }
  assert (Hs : proc_sends (iterateChangeStream m' {| stream_batch := Ok <$> es |})
               = processMessage_event (self s) <$> es)
    by (by apply (sends_of_trace _ [] [Called CallStreamClose])).
  split; [exact Ht |]. split; [exact He |]. split.
  - intros n. rewrite <- Hs. by apply Read_n_prefix.
  - intros Hall.
    destruct (delivery json_Marshal (self s) es _ s' Hp Hs Hall) as [HR HN].
    split; [exact HR |]. by rewrite HN, He.
Qed.

Lemma tail_only_order_and_end_witness :
  ∃ (s' : sys) (p : proc unit),
    Connect sample_driver (new_sys "mongodb://h" "db" "c" false) = Returned None s'
    ∧ pump s' = Some p
    ∧ trace p
      = (Sent <$> (processMessage_event conf_db_c <$> [raw_update; raw_delete]))
        ++ [Called CallStreamClose]
    ∧ proc_end p = None
    ∧ (∀ n : nat, (2 ≤ n)%nat →
         Some <$> Read_n sample_Marshal n s'
         = Read_event sample_Marshal
             <$> (processMessage_event conf_db_c <$> [raw_update; raw_delete]))
    ∧ Read_nth sample_Marshal 2 s' = Blocked.
Proof.
  destruct (tail_only_order_and_end sample_driver sample_Marshal
           (new_sys "mongodb://h" "db" "c" false) (MkClient "mongodb://h")
           [raw_update; raw_delete] eq_refl eq_refl eq_refl)
    as (s' & p & HC & Hp & Ht & He & _ & Hex).
  exists s', p. split; [exact HC |]. split; [exact Hp |].
  split; [exact Ht |]. split; [exact He |].
  apply Hex. repeat constructor; vm_compute; eauto.
Defined.

(** X10. Snapshot mode, every answer of the driver without error: once
    the snapshot and the change events have all been read, the goroutine
    has closed the stream and returned, and the next read waits for
    ever. *)
Theorem snapshot_then_tail_end (w : driver)
    (json_Marshal : value → result (list Byte.byte)) (s : sys)
    (c : mongo_Client) (ds es : list (gmap string value)) :
  streamSnapshot (self s) = true →
  mongo_Connect w (uri (self s)) = Ok c →
  coll_Find w = Ok {| cursor_batch := Ok <$> ds; cursor_err := None |} →
  coll_Watch w = Ok {| stream_batch := Ok <$> es |} →
  Forall string_operation (ds ++ es) →
  ∃ (s' : sys) (p : proc unit),
    Connect w s = Returned None s'
    ∧ pump s' = Some p
    ∧ proc_end p = None
    ∧ Read_nth json_Marshal (length ds + length es) s' = Blocked.
Proof.
  intros Hsnap Hconn HF HW Hall.
  destruct (Connect_snapshot w s c Hsnap Hconn) as (s' & m' & HC & Hp & Hm).
  exists s', (takeSnapshot w m'). split; [exact HC |]. split; [exact Hp |].
  pose proof (takeSnapshot_trace w m' ds es HF HW) as Ht.
  assert (He : proc_end (takeSnapshot w m') = None).
  { unfold takeSnapshot. rewrite HF, HW. simpl.
    destruct (iterateCursor_ok m' ds) as [_ Hce].
    rewrite (proc_end_seq _ _ Hce). simpl.
    unfold iterateChangeStream. rewrite proc_end_defer. simpl.
    apply iterateChangeStream_loop_trace. }
  assert (Hs : proc_sends (takeSnapshot w m') = processMessage_event m' <$> (ds ++ es)).
  { unfold proc_sends. rewrite Ht. rewrite !omap_app, !omap_sent_fmap. simpl.
    by rewrite app_nil_r, fmap_app. }
  split; [exact He |].
  destruct (delivery json_Marshal m' (ds ++ es) _ s' Hp Hs Hall) as [_ HN].
  rewrite length_app in HN. by rewrite HN, He.
Qed.

Lemma snapshot_then_tail_end_witness :
  ∃ (s' : sys) (p : proc unit),
    Connect sample_driver (new_sys "mongodb://h" "db" "c" true) = Returned None s'
    ∧ pump s' = Some p
    ∧ proc_end p = None
    ∧ Read_nth sample_Marshal 3 s' = Blocked.
Proof.
  apply (snapshot_then_tail_end sample_driver sample_Marshal
           (new_sys "mongodb://h" "db" "c" true) (MkClient "mongodb://h")
           [doc_5_a] [raw_update; raw_delete] eq_refl eq_refl eq_refl eq_refl).
  repeat constructor; vm_compute; eauto.
Defined.

(** ** What every delivered message looks like *)

Lemma trace_bind_Forall {A B : Type} (P : step → Prop) (f : A → proc B) (p : proc A) :
  Forall P (trace p) → (∀ a, Forall P (trace (f a))) → Forall P (trace (p ≫= f)).
Proof.
  unfold mbind, proc_mbind. intros Hp Hf.
  induction p as [a | e | c k IH | ev k IH]; simpl in *; auto.
  - apply Forall_cons in Hp as [Hc Hk]. constructor; auto.
  - apply Forall_cons in Hp as [Hc Hk]. constructor; auto.
Qed.

Lemma trace_defer_Forall {A : Type} (P : step → Prop) (c : driver_call) (p : proc A) :
  P (Called c) → Forall P (trace p) → Forall P (trace (defer c p)).
Proof.
  intros Hc Hp. rewrite trace_defer. apply Forall_app. split; [done |].
  by constructor.
Qed.

Section Sends.

Variable m : mongoStreamInput.

(** Every send carries the event of some record. *)
Let from_record (st : step) : Prop :=
  match st with
  | Sent ev => ∃ data, ev = processMessage_event m data
  | Called _ => True
  end.

Lemma iterateCursor_loop_from_record batch :
  Forall from_record (trace (iterateCursor_loop m batch)).
Proof.
  induction batch as [| [data | e] rest IH]; simpl; [constructor | | constructor].
  constructor; [by exists data | exact IH].
Qed.

Lemma iterateChangeStream_loop_from_record batch :
  Forall from_record (trace (iterateChangeStream_loop m batch)).
Proof.
  induction batch as [| [data | e] rest IH]; simpl; [constructor | | constructor].
  constructor; [by exists data | exact IH].
Qed.

Lemma iterateChangeStream_from_record stream :
  Forall from_record (trace (iterateChangeStream m stream)).
Proof.
  apply trace_defer_Forall; [done | apply iterateChangeStream_loop_from_record].
Qed.

Lemma takeSnapshot_from_record w :
  Forall from_record (trace (takeSnapshot w m)).
Proof.
  unfold takeSnapshot. simpl. constructor; [done |]. constructor; [done |].
  destruct (coll_Find w) as [cursor | e]; [| constructor].
  apply trace_bind_Forall.
  - apply trace_defer_Forall; [done |]. apply trace_bind_Forall.
    + apply iterateCursor_loop_from_record.
    + intros _. destruct (cursor_err cursor); constructor.
  - intros _. simpl. constructor; [done |].
    destruct (coll_Watch w) as [stream | e]; [| constructor].
    apply iterateChangeStream_from_record.
Qed.

Lemma sends_from_record {A : Type} (p : proc A) (ev : gmap string value) :
  Forall from_record (trace p) → ev ∈ proc_sends p →
  ∃ data, ev = processMessage_event m data.
Proof.
  intros Hall Hin. unfold proc_sends in Hin.
  apply list_elem_of_omap in Hin as (st & Hst & Hev).
  rewrite Forall_forall in Hall. specialize (Hall st Hst).
  destruct st as [c | ev']; [discriminate |]. by injection Hev as <-.
Qed.

End Sends.

(** Whatever [Connect] returns, it is [nil], the connector has its
    client and a live context, and the goroutine only sends events of
    records, built with the configured names. *)
Lemma Connect_returned w s r s' :
  Connect w s = Returned r s' →
  r = None
  ∧ is_Some (client (self s'))
  ∧ context (self s') = Some {| ctx_cancelled := false |}
  ∧ database (self s') = database (self s)
  ∧ collection (self s') = collection (self s)
  ∧ ∃ p, pump s' = Some p
         ∧ ∀ ev, ev ∈ proc_sends p → ∃ data, ev = processMessage_event (self s) data.
Proof.
  unfold Connect. destruct (mongo_Connect w (uri (self s))) as [c | e]; [| discriminate].
  set (m' := {| uri := uri (self s); client := Some c |}).
  assert (Hext : ∀ d, processMessage_event m' d = processMessage_event (self s) d)
    by (intros d; by apply processMessage_event_ext).
  destruct (streamSnapshot (self s)).
  - intros [= <- <-]. simpl. repeat split; try done.
    eexists. split; [reflexivity |]. intros ev Hin.
    destruct (sends_from_record m' _ ev (takeSnapshot_from_record m' w) Hin) as [d ->].
    exists d. apply Hext.
  - destruct (coll_Watch w) as [stream | e]; [| discriminate].
    intros [= <- <-]. simpl. repeat split; try done.
    eexists. split; [reflexivity |]. intros ev Hin.
    destruct (sends_from_record m' _ ev (iterateChangeStream_from_record m' stream) Hin)
      as [d ->].
    exists d. apply Hext.
Qed.

Lemma Read_event_record_names json_Marshal m data r :
  Read_event json_Marshal (processMessage_event m data) = Some r →
  meta (r_msg r) !! "table" = Some (collection m)
  ∧ meta (r_msg r) !! "schema" = Some (database m)
  ∧ r_err r = None
  ∧ r_ack r = ack_nil.
Proof.
  destruct (processMessage_event_index_names m data) as [Hc Hd].
  unfold Read_event. rewrite Hc, Hd. simpl.
  destruct (assert_string (index (processMessage_event m data) "action"));
    [| discriminate].
  intros [= <-]. simpl. by simplify_map_eq.
Qed.

(** X11. In either mode and whatever the driver answers, every message a
    read returns after [Connect] is the message of some record, built
    with the names the connector was configured with: its [table] is the
    configured collection, its [schema] the configured database, its
    error is [nil], and its acknowledgement function returns [nil]
    whatever it is given. *)
Theorem messages_carry_configuration (w : driver)
    (json_Marshal : value → result (list Byte.byte))
    (s s' : sys) (r0 : option error) (n : nat) (r : read_result) :
  Connect w s = Returned r0 s' →
  r ∈ Read_n json_Marshal n s' →
  (∃ data, Read_event json_Marshal (processMessage_event (self s) data) = Some r)
  ∧ meta (r_msg r) !! "table" = Some (collection (self s))
  ∧ meta (r_msg r) !! "schema" = Some (database (self s))
  ∧ r_err r = None
  ∧ ∀ e : option error, r_ack r e = None.
Proof.
  intros HC Hin.
  destruct (Connect_returned w s r0 s' HC) as (_ & _ & _ & _ & _ & p & Hp & Hsends).
  destruct (Read_n_from_sends json_Marshal n s' p r Hp Hin) as (ev & Hev & Hr).
  destruct (Hsends ev Hev) as [data ->].
  destruct (Read_event_record_names json_Marshal _ _ _ Hr) as (Ht & Hs & He & Ha).
  split; [by exists data |]. split; [exact Ht |]. split; [exact Hs |].
  split; [exact He |]. intros e. by rewrite Ha.
Qed.

Lemma messages_carry_configuration_witness :
  update_message ∈ Read_n sample_Marshal 2 tail_connected
  ∧ (∃ data,
       Read_event sample_Marshal (processMessage_event conf_db_c data)
       = Some update_message)
  ∧ meta (r_msg update_message) !! "table" = Some "c"
  ∧ meta (r_msg update_message) !! "schema" = Some "db"
  ∧ r_err update_message = None
  ∧ ∀ e : option error, r_ack update_message e = None.
Proof.
  assert (Hin : update_message ∈ Read_n sample_Marshal 2 tail_connected)
    by (vm_compute; left).
  split; [exact Hin |].
  exact (messages_carry_configuration sample_driver sample_Marshal
           (new_sys "mongodb://h" "db" "c" false) tail_connected None 2
           update_message eq_refl Hin).
Defined.

(** ** Construction *)

Lemma newMongoStreamInput_conf_ok conf m :
  newMongoStreamInput_conf conf = Ok m →
  ∃ u d c snap,
    FieldString conf "uri" = Ok u
    ∧ FieldString conf "database" = Ok d
    ∧ FieldString conf "collection" = Ok c
    ∧ FieldBool conf "stream_snapshot" = Ok snap
    ∧ m = newMongoStreamInput u d c snap.
Proof.
  unfold newMongoStreamInput_conf.
  destruct (FieldString conf "uri") as [u |]; [| discriminate].
  destruct (FieldString conf "database") as [d |]; [| discriminate].
  destruct (FieldString conf "collection") as [c |]; [| discriminate].
  destruct (FieldBool conf "stream_snapshot") as [snap |]; [| discriminate].
  intros [= <-]. by exists u, d, c, snap.
Qed.

(** X12. [newMongoStreamInput] succeeds exactly when all four fields can
    be read, and then the connector holds exactly those four values, with
    no client and no context yet. When it fails, the error is that of the
    first field, in the order uri, database, collection, stream_snapshot,
    that cannot be read. *)
Theorem newMongoStreamInput_conf_cases (conf : ParsedConfig) :
  (∀ m : mongoStreamInput,
     newMongoStreamInput_conf conf = Ok m
     ↔ ∃ u d c snap,
         FieldString conf "uri" = Ok u
         ∧ FieldString conf "database" = Ok d
         ∧ FieldString conf "collection" = Ok c
         ∧ FieldBool conf "stream_snapshot" = Ok snap
         ∧ m = {| uri := u; database := d; collection := c; client := None;
                  streamSnapshot := snap; context := None |})
  ∧ (∀ e : error,
       newMongoStreamInput_conf conf = Failed e
       ↔ FieldString conf "uri" = Failed e
         ∨ (∃ u, FieldString conf "uri" = Ok u)
           ∧ (FieldString conf "database" = Failed e
              ∨ (∃ d, FieldString conf "database" = Ok d)
                ∧ (FieldString conf "collection" = Failed e
                   ∨ (∃ c, FieldString conf "collection" = Ok c)
                     ∧ FieldBool conf "stream_snapshot" = Failed e))).
Proof.
  split.
  - intros m. split; [apply newMongoStreamInput_conf_ok |].
    intros (u & d & c & snap & Hu & Hd & Hc & Hs & ->).
    unfold newMongoStreamInput_conf. by rewrite Hu, Hd, Hc, Hs.
  - intros e. unfold newMongoStreamInput_conf.
    destruct (FieldString conf "uri") as [u | eu].
    2: { split; [intros [= ->]; by left | intros [[= ->] | [[u Hu] _]]; done]. }
    destruct (FieldString conf "database") as [d | ed].
    2: { split; [intros [= ->]; right; split; [by eexists | by left] |].
         intros [| [_ [[= ->] | [[d Hd] _]]]]; done. }
    destruct (FieldString conf "collection") as [c | ec].
    2: { split.
         - intros [= ->]. right. split; [by eexists |]. right.
           split; [by eexists | by left].
         - intros [| [_ [| [_ [[= ->] | [[c Hc] _]]]]]]; done. }
    destruct (FieldBool conf "stream_snapshot") as [snap | es].
    + split; [discriminate |].
      intros [| [_ [| [_ [| [_ ?]]]]]]; done.
    + split.
      * intros [= ->]. right. split; [by eexists |]. right.
        split; [by eexists |]. right. split; [by eexists | done].
      * intros [| [_ [| [_ [| [_ [= ->]]]]]]]; done.
Qed.

(** X13. From configuration to message: when the connector is built from
    a configuration and connected, every message any read returns has the
    configured collection as [table] and the configured database as
    [schema]. *)
Theorem configured_names_in_messages (conf : ParsedConfig) (w : driver)
    (json_Marshal : value → result (list Byte.byte))
    (m : mongoStreamInput) (r0 : option error) (s' : sys)
    (n : nat) (r : read_result) :
  newMongoStreamInput_conf conf = Ok m →
  Connect w (sys_of m) = Returned r0 s' →
  r ∈ Read_n json_Marshal n s' →
  ∃ d c : string,
    FieldString conf "database" = Ok d
    ∧ FieldString conf "collection" = Ok c
    ∧ meta (r_msg r) !! "schema" = Some d
    ∧ meta (r_msg r) !! "table" = Some c.
Proof.
  intros Hconf HC Hin.
  destruct (newMongoStreamInput_conf_ok conf m Hconf)
    as (u & d & c & snap & _ & Hd & Hc & _ & ->).
  destruct (Connect_returned w _ r0 s' HC) as (_ & _ & _ & _ & _ & p & Hp & Hsends).
  destruct (Read_n_from_sends json_Marshal n s' p r Hp Hin) as (ev & Hev & Hr).
  destruct (Hsends ev Hev) as [data ->].
  destruct (Read_event_record_names json_Marshal _ _ _ Hr) as (Ht & Hs & _).
  exists d, c. by repeat split.
Qed.

Lemma configured_names_in_messages_witness :
  newMongoStreamInput_conf sample_conf = Ok (newMongoStreamInput "mongodb://h" "db" "c" true)
  ∧ ∃ (s' : sys) (r : read_result),
      Connect sample_driver (new_sys "mongodb://h" "db" "c" true) = Returned None s'
      ∧ r ∈ Read_n sample_Marshal 3 s'
      ∧ ∃ d c : string,
          FieldString sample_conf "database" = Ok d
          ∧ FieldString sample_conf "collection" = Ok c
          ∧ meta (r_msg r) !! "schema" = Some d
          ∧ meta (r_msg r) !! "table" = Some c.
Proof.
  split; [reflexivity |].
  exists snapshot_connected, update_message. split; [reflexivity |].
  assert (Hin : update_message ∈ Read_n sample_Marshal 3 snapshot_connected)
    by (vm_compute; right; left).
  split; [exact Hin |].
  exact (configured_names_in_messages sample_conf sample_driver sample_Marshal
           (newMongoStreamInput "mongodb://h" "db" "c" true) None
           snapshot_connected 3 update_message eq_refl eq_refl Hin).
Defined.

(** ** [Close] and [Read] together *)

Lemma Close_n_connected_state w c (n : nat) : ∀ s : sys,
  client (self s) = Some c →
  length (Close_n w n s).1 = n
  ∧ self (Close_n w n s).2 = self s
  ∧ pump (Close_n w n s).2 = pump s
  ∧ disconnects (Close_n w n s).2 = disconnects s + n.
Proof.
  induction n as [| n IH]; intros s Hc; simpl.
  - by rewrite Nat.add_0_r.
  - rewrite (Close_connected w s c Hc).
    set (s1 := {| self := self s; pump := pump s; disconnects := S (disconnects s) |}).
    destruct (IH s1 Hc) as (Hl & Hs & Hp & Hd).
    destruct (Close_n w n s1) as [rs s2]. simpl in *.
    rewrite Hl, Hs, Hp, Hd. repeat split; lia.
Qed.

(** X14. After [Connect] no number of [Close] calls cancels the context:
    each of them returns (none panics), the context the goroutine was
    given stays live, the goroutine is left alone, and the only thing that
    grows is the number of Disconnect calls. *)
Theorem Close_never_cancels (w : driver) (s s1 : sys) (r0 : option error) (n : nat) :
  Connect w s = Returned r0 s1 →
  length (Close_n w n s1).1 = n
  ∧ context (self (Close_n w n s1).2) = Some {| ctx_cancelled := false |}
  ∧ pump (Close_n w n s1).2 = pump s1
  ∧ disconnects (Close_n w n s1).2 = disconnects s + n.
Proof.
  intros HC.
  destruct (Connect_returned w s r0 s1 HC) as (_ & [c Hc] & Hctx & _).
  destruct (Close_n_connected_state w c n s1 Hc) as (Hl & Hs & Hp & Hd).
  rewrite Hs. repeat split; try done.
  rewrite Hd. f_equal. revert HC. unfold Connect.
  destruct (mongo_Connect w (uri (self s))); [| discriminate].
  destruct (streamSnapshot (self s)); [by intros [= _ <-] |].
  destruct (coll_Watch w); [by intros [= _ <-] | discriminate].
Qed.

Lemma Close_never_cancels_witness :
  length (Close_n sample_driver 3 tail_connected).1 = 3
  ∧ context (self (Close_n sample_driver 3 tail_connected).2)
    = Some {| ctx_cancelled := false |}
  ∧ pump (Close_n sample_driver 3 tail_connected).2 = pump tail_connected
  ∧ disconnects (Close_n sample_driver 3 tail_connected).2 = 0 + 3.
Proof.
  exact (Close_never_cancels sample_driver (new_sys "mongodb://h" "db" "c" false)
           tail_connected None 3 eq_refl).
Defined.

(** X15. A connector that was built but never connected has no client
    and no cancel function: [Close] on it panics on the nil function, and
    [Read] on it waits for ever, as nothing sends on its channel. *)
Theorem Close_before_Connect_panics (conf : ParsedConfig) (w : driver)
    (json_Marshal : value → result (list Byte.byte)) (m : mongoStreamInput) :
  newMongoStreamInput_conf conf = Ok m →
  Close w (sys_of m) = Panicked (Err "invalid memory address or nil pointer dereference")
  ∧ Read json_Marshal (sys_of m) = Blocked.
Proof.
  intros Hconf.
  destruct (newMongoStreamInput_conf_ok conf m Hconf)
    as (u & d & c & snap & _ & _ & _ & _ & ->).
  split; reflexivity.
Qed.

Lemma Close_before_Connect_panics_witness :
  Close sample_driver (sys_of (newMongoStreamInput "mongodb://h" "db" "c" true))
  = Panicked (Err "invalid memory address or nil pointer dereference")
  ∧ Read sample_Marshal (sys_of (newMongoStreamInput "mongodb://h" "db" "c" true))
    = Blocked.
Proof.
  exact (Close_before_Connect_panics sample_conf sample_driver sample_Marshal
           (newMongoStreamInput "mongodb://h" "db" "c" true) eq_refl).
Defined.

(** X16. [Close] and [Read] do not see each other: when both return from
    a state, they return the same results in either order and leave the
    same state. In particular a [Close] takes no pending event away and a
    [Read] after it still returns the next one. *)
Theorem Close_Read_commute (w : driver)
    (json_Marshal : value → result (list Byte.byte))
    (s s1 s2 : sys) (r : read_result) (e : option error) :
  Read json_Marshal s = Returned r s1 →
  Close w s = Returned e s2 →
  ∃ s3 : sys,
    Close w s1 = Returned e s3
    ∧ Read json_Marshal s2 = Returned r s3.
Proof.
  intros HR HC.
  apply Read_returned in HR as (p & ev & k & Hp & Hns & Hr & ->).
  unfold Close in *. simpl.
  destruct (client (self s)) as [c |].
  - injection HC as <- <-. eexists. split; [reflexivity |].
    unfold Read. simpl. by rewrite Hp, Hns, Hr.
  - destruct (context (self s)); [| discriminate].
    injection HC as <- <-. eexists. split; [reflexivity |].
    unfold Read. simpl. by rewrite Hp, Hns, Hr.
Qed.

Lemma Close_Read_commute_witness :
  ∃ s1 s2 s3 : sys,
    Read sample_Marshal tail_connected = Returned update_message s1
    ∧ Close sample_driver tail_connected = Returned None s2
    ∧ Close sample_driver s1 = Returned None s3
    ∧ Read sample_Marshal s2 = Returned update_message s3.
Proof.
  eexists _, _.
  destruct (Close_Read_commute sample_driver sample_Marshal tail_connected
              _ _ update_message None eq_refl eq_refl) as (s3 & H1 & H2).
  exists s3. split; [reflexivity |]. split; [reflexivity |].
  split; [exact H1 | exact H2].
Defined.
